(** * go-core-fx/config: a layered configuration loader

    A shallow embedding of [config.go], [options.go] and the [Duration]
    type, and the properties of the loader proved over it.

    Go strings are byte sequences and are embedded as [string]; a Go map
    with string keys is a [gmap string _]; a value of type [any] found in
    a configuration tree is a [Value].  Functions that report failure
    through a second [error] result return a sum or carry an
    [option error].  The file system, the process environment and the
    third-party parsers are parameters of the development. *)

From Stdlib Require Import Ascii ZArith.
From stdpp Require Import gmap strings list fin_maps.

#[local] Set Warnings "-register-all".
#[local] Open Scope Z_scope.

(** ** Configuration values *)

(** The dynamic values a configuration tree holds: what the YAML and
    JSON decoders produce for [any].  A [float64] is kept as its
    IEEE-754 bit pattern. *)
Inductive Value :=
| VNil
| VBool (b : bool)
| VInt (n : Z)
| VFloat (bits : Z)
| VString (s : string)
| VSlice (l : list Value)
| VMap (m : gmap string Value).

(** [map[string]any] *)
Abbreviation Tree := (gmap string Value).

(** The type switch [val.(map[string]interface{})]. *)
Definition is_map (v : Value) : bool :=
  match v with VMap _ => true | _ => false end.

(** ** Errors *)

(** Go error values, as far as the loader builds and inspects them:
    the sentinel [os.ErrNotExist], an opaque error with its message, the
    [*fs.PathError] a failed file operation returns, and the result of
    [fmt.Errorf(prefix + ": %w", cause)]. *)
Inductive error :=
| ErrNotExist
| errors_New (msg : string)
| PathError (op path : string) (err : error)
| Errorf (prefix : string) (cause : error).

#[global] Instance error_eq_dec : EqDecision error.
Proof. solve_decision. Defined.

(** The [Error()] method. *)
Fixpoint Error (e : error) : string :=
  match e with
  | ErrNotExist => "file does not exist"
  | errors_New msg => msg
  | PathError op path err => op +:+ " " +:+ path +:+ ": " +:+ Error err
  | Errorf prefix cause => prefix +:+ ": " +:+ Error cause
  end.

(** [errors.Unwrap] *)
Definition Unwrap (e : error) : option error :=
  match e with
  | PathError _ _ err => Some err
  | Errorf _ cause => Some cause
  | _ => None
  end.

(** [errors.Is]: [target] is found somewhere on the [Unwrap] chain. *)
Fixpoint errors_Is (e target : error) : bool :=
  if decide (e = target) then true
  else match e with
       | PathError _ _ err => errors_Is err target
       | Errorf _ cause => errors_Is cause target
       | _ => false
       end.

(** [strings.Contains], as a proposition. *)
Definition Contains (s sub : string) : Prop :=
  exists pre post, s = pre +:+ sub +:+ post.

(** ** Package [strings] *)

Definition HasPrefix (s prefix : string) : bool := String.prefix prefix s.

(** [len(s) >= len(suffix) && s[len(s)-len(suffix):] == suffix] *)
Definition HasSuffix (s suffix : string) : bool :=
  let n := String.length s in
  let m := String.length suffix in
  (m <=? n)%nat && String.eqb (String.substring (n - m) m s) suffix.

(** [c >= utf8.RuneSelf] fails, i.e. the byte is ASCII. *)
Definition is_ascii_byte (c : ascii) : bool := (nat_of_ascii c <? 128)%nat.

(** ['A' <= c && c <= 'Z'] *)
Definition is_upper_byte (c : ascii) : bool :=
  (65 <=? nat_of_ascii c)%nat && (nat_of_ascii c <=? 90)%nat.

(** [c += 'a' - 'A'] for an upper-case byte, any other byte unchanged. *)
Definition lower_byte (c : ascii) : ascii :=
  if is_upper_byte c then ascii_of_nat (nat_of_ascii c + 32) else c.

Fixpoint string_forallb (f : ascii -> bool) (s : string) : bool :=
  match s with
  | EmptyString => true
  | String c s' => f c && string_forallb f s'
  end.

Fixpoint string_existsb (f : ascii -> bool) (s : string) : bool :=
  match s with
  | EmptyString => false
  | String c s' => f c || string_existsb f s'
  end.

Fixpoint string_map (f : ascii -> ascii) (s : string) : string :=
  match s with
  | EmptyString => EmptyString
  | String c s' => String (f c) (string_map f s')
  end.

Section Strings.
(** [strings.Map(unicode.ToLower, s)], the path [strings.ToLower] takes
    for a string that holds a byte outside ASCII. *)
Variable unicode_ToLower_Map : string -> string.

(** [strings.ToLower]: an ASCII-only string is returned as it is when it
    has no upper-case letter and lower-cased byte by byte otherwise. *)
Definition ToLower (s : string) : string :=
  if string_forallb is_ascii_byte s then
    if negb (string_existsb is_upper_byte s) then s
    else string_map lower_byte s
  else unicode_ToLower_Map s.
End Strings.

(** ** [envTransform] *)

Section Transform.
Variable unicode_ToLower_Map : string -> string.
(** [json.Unmarshal([]byte(v), &m)] for [m : map[string]any] and
    [json.Unmarshal([]byte(v), &a)] for [a : []any]. *)
Variable json_Unmarshal_map : string -> error + Tree.
Variable json_Unmarshal_slice : string -> error + list Value.

Definition envTransform (k v : string) : string * Value :=
  let k := ToLower unicode_ToLower_Map k in
  (* return k, v *)
  let plain := (k, VString v) in
  (* JSON array -> []any *)
  let array :=
    if HasPrefix v "[" && HasSuffix v "]" then
      match json_Unmarshal_slice v with
      | inr a => (k, VSlice a)
      | inl _ => plain
      end
    else plain in
  (* JSON object -> map *)
  if HasPrefix v "{" && HasSuffix v "}" then
    match json_Unmarshal_map v with
    | inr m => (k, VMap m)
    | inl _ => array
    end
  else array.
End Transform.

(** ** The merge store

    [koanf.Koanf] keeps the merged configuration in [confMap] and merges
    every loaded map into it with [maps.Merge]. *)

(** Modelled from the spec: the Merge Store of section 4.3, which the
    koanf library implements ([maps.Merge]) and the repository only
    calls.  One key of [maps.Merge(a, b)]: [av] is the incoming value,
    [bv] the value the target holds under the same key.  Nested maps
    merge key by key, recursively; a value that is not a map overwrites
    wholesale, and so does a map that meets a value that is not one. *)
Fixpoint mergeV (av bv : Value) {struct av} : Value :=
  match av, bv with
  | VMap am, VMap bm =>
      VMap (union_with (fun x y => Some (mergeV x y)) am bm)
  | _, _ => av
  end.

(** Modelled from the spec: [Ingest] of section 4.3, [maps.Merge(a, b)]
    of the koanf library.  Every key of the partial tree [a] is set or
    overwritten in the cumulative tree [b]; a key of [b] that [a] does
    not have stays. *)
Definition Merge (a b : Tree) : Tree :=
  union_with (fun x y => Some (mergeV x y)) a b.

(** The value at a key path, descending through nested maps; the empty
    path is the value itself. *)
Fixpoint get (p : list string) (v : Value) : option Value :=
  match p with
  | [] => Some v
  | k :: rest =>
      match v with
      | VMap m => match m !! k with Some x => get rest x | None => None end
      | _ => None
      end
  end.

(** A value that is not a map sits on the path, strictly above its
    end: what lies below it on the path is replaced with it. *)
Fixpoint blocked (p : list string) (v : Value) : bool :=
  match p with
  | [] => false
  | k :: rest =>
      match v with
      | VMap m => match m !! k with Some x => blocked rest x | None => false end
      | _ => true
      end
  end.

(** ** Input and output

    The loader reads files and the process environment.  Each read is
    recorded in a log, so that which reads a call performed can be
    stated. *)

Inductive Event :=
| EvReadFile (path : string)
| EvEnviron.

Definition IO (A : Type) : Type := list Event -> A * list Event.

Definition io_ret {A} (a : A) : IO A := fun log => (a, log).

Definition io_bind {A B} (m : IO A) (f : A -> IO B) : IO B :=
  fun log => let (a, log') := m log in f a log'.

#[global] Instance IO_ret : MRet IO := @io_ret.
#[global] Instance IO_bind : MBind IO := fun A B f m => io_bind m f.

(** What the loader is given from outside: the file system, the
    environment, and the parsers of the libraries it calls. *)
Record World := {
  (** [os.ReadFile] on the path a [file.Provider] was built with *)
  ReadFile : string -> error + string;
  (** [yaml.Parser().Unmarshal] *)
  yaml_Unmarshal : string -> error + Tree;
  (** [dotenv.ParserEnvWithValue(prefix, delim, cb).Unmarshal], for the
      empty prefix and the delimiter [__], as a function of [cb] *)
  dotenv_Unmarshal : (string -> string -> string * Value) -> string -> error + Tree;
  (** [env.Provider(delim, env.Opt{Prefix, TransformFunc, EnvironFunc}).Read],
      for the delimiter [__], the empty prefix and no [EnvironFunc], as
      a function of [TransformFunc] *)
  env_Read : (string -> string -> string * Value) -> error + Tree;
  unicode_lower : string -> string;
  json_map : string -> error + Tree;
  json_slice : string -> error + list Value
}.

(** ** [koanf] *)

(** [koanf.Provider]: [ReadBytes] and [Read]. *)
Record Provider := {
  ReadBytes : IO (error + string);
  Read : IO (error + Tree)
}.

(** [koanf.Parser], of which [Load] uses [Unmarshal] only. *)
Definition Parser : Type := string -> error + Tree.

(** The [*koanf.Koanf] instance, i.e. its [confMap]. *)
Abbreviation Koanf := Tree.

(** [koanf.New(".")] *)
Definition koanf_New : Koanf := ∅.

(** Modelled from the spec: a source reader of section 4.2 followed by
    [Ingest] of section 4.3, which is [Koanf.Load(p, pa)] of the koanf
    library.  Without a parser the provider is asked for a map, with one
    for the bytes the parser turns into a map; the map is merged into
    the instance.  On an error nothing is merged. *)
Definition Koanf_Load (p : Provider) (pa : option Parser) (k : Koanf)
  : IO (option error * Koanf) :=
  match pa with
  | None =>
      r ← Read p;
      match r with
      | inl err => io_ret (Some err, k)
      | inr mp => io_ret (None, Merge mp k)
      end
  | Some pa =>
      r ← ReadBytes p;
      match r with
      | inl err => io_ret (Some err, k)
      | inr b =>
          match pa b with
          | inl err => io_ret (Some err, k)
          | inr mp => io_ret (None, Merge mp k)
          end
      end
  end.

Section Loader.
Variable w : World.

(** [file.Provider(path)] *)
Definition file_Provider (path : string) : Provider :=
  {| ReadBytes := fun log => (ReadFile w path, log ++ [EvReadFile path]);
     Read := io_ret (inl (errors_New "file provider does not support this method")) |}.

(** [env.Provider("__", env.Opt{Prefix: "", TransformFunc: cb, EnvironFunc: nil})] *)
Definition env_Provider (cb : string -> string -> string * Value) : Provider :=
  {| ReadBytes := io_ret (inl (errors_New "env provider does not support this method"));
     Read := fun log => (env_Read w cb, log ++ [EvEnviron]) |}.

(** [envTransform], with the decoders of this world. *)
Definition transform : string -> string -> string * Value :=
  envTransform (unicode_lower w) (json_map w) (json_slice w).

(** *** [options.go] *)

Record options := { withYaml : string }.

Definition Option : Type := options -> options.

(** [new(options)] *)
Definition new_options : options := {| withYaml := EmptyString |}.

Definition apply (o : options) (opts : list Option) : options :=
  fold_left (fun o opt => opt o) opts o.

Definition WithLocalYAML (path : string) : Option :=
  fun o => {| withYaml := path |}.

(** *** [config.go] *)

Definition loadFromYAML (path : string) (k : Koanf) : IO (option error * Koanf) :=
  if decide (path = EmptyString) then io_ret (None, k)
  else
    '(err, k) ← Koanf_Load (file_Provider path) (Some (yaml_Unmarshal w)) k;
    match err with
    | Some err =>
        if negb (errors_Is err ErrNotExist)
        then io_ret (Some (Errorf "load yaml" err), k)
        else io_ret (None, k)
    | None => io_ret (None, k)
    end.

Definition loadDotenv (k : Koanf) : IO (option error * Koanf) :=
  '(err, k) ← Koanf_Load (file_Provider ".env")
                 (Some (dotenv_Unmarshal w transform)) k;
  match err with
  | Some err =>
      if negb (errors_Is err ErrNotExist)
      then io_ret (Some (Errorf "load dotenv" err), k)
      else io_ret (None, k)
  | None => io_ret (None, k)
  end.

Definition loadEnv (k : Koanf) : IO (option error * Koanf) :=
  '(err, k) ← Koanf_Load (env_Provider transform) None k;
  match err with
  | Some err => io_ret (Some (Errorf "load env" err), k)
  | None => io_ret (None, k)
  end.

(** The target [*T] and [k.Unmarshal("", c)]: the decoder writes into
    the target and may fail after it has written a part of it. *)
Variable T : Type.
Variable Unmarshal : Koanf -> T -> option error * T.

Definition Load (c : T) (opts : list Option) : IO (option error * T) :=
  let options := apply new_options opts in
  let k := koanf_New in
  '(err, k) ← loadFromYAML (withYaml options) k;
  match err with
  | Some err => io_ret (Some err, c)
  | None =>
  '(err, k) ← loadDotenv k;
  match err with
  | Some err => io_ret (Some err, c)
  | None =>
  '(err, k) ← loadEnv k;
  match err with
  | Some err => io_ret (Some err, c)
  | None =>
  match Unmarshal k c with
  | (Some err, c) => io_ret (Some (Errorf "unmarshal" err), c)
  | (None, c) => io_ret (None, c)
  end end end end.
End Loader.

(** ** What a stage ingests

    The partial tree each stage of [Load] merges into the store, read
    off the world without the log. *)

Section Sources.
Variable w : World.

(** What [Koanf.Load(file.Provider(path), pa)] reads and parses. *)
Definition file_tree (path : string) (pa : Parser) : error + Tree :=
  match ReadFile w path with
  | inl err => inl err
  | inr b => pa b
  end.

(** The not-found policy of [loadFromYAML] and [loadDotenv]: an error
    that is [os.ErrNotExist] contributes nothing, any other error
    stays. *)
Definition skip_not_found (r : error + Tree) : error + Tree :=
  match r with
  | inl err => if errors_Is err ErrNotExist then inr ∅ else inl err
  | inr t => inr t
  end.

Definition yaml_source (path : string) : error + Tree :=
  if decide (path = EmptyString) then inr ∅
  else skip_not_found (file_tree path (yaml_Unmarshal w)).

Definition dotenv_source : error + Tree :=
  skip_not_found (file_tree ".env" (dotenv_Unmarshal w (transform w))).

Definition env_source : error + Tree := env_Read w (transform w).

(** The reads of the structured-file stage. *)
Definition yaml_reads (path : string) : list Event :=
  if decide (path = EmptyString) then [] else [EvReadFile path].
End Sources.

(** What [Load] returns once the decoder has run. *)
Definition materialized {T} (r : option error * T) : option error * T :=
  match r with
  | (Some err, c) => (Some (Errorf "unmarshal" err), c)
  | (None, c) => (None, c)
  end.

(** ** [Duration] *)

(** [type Duration time.Duration], an [int64] count of nanoseconds. *)
Definition Duration : Type := Z.

(** A call either returns or panics (here: on a nil receiver that is
    written through). *)
Inductive Outcome (A : Type) :=
| Returns (a : A)
| Panics.
Arguments Returns {A} a.
Arguments Panics {A}.

Section DurationMethods.
Variable time_ParseDuration : string -> error + Z.
Variable time_Duration_String : Z -> string.
(** [value.Decode(&s)] for a [*yaml.Node] and [s : string] *)
Variable Node : Type.
Variable Node_Decode_string : Node -> error + string.

(** The receiver [d *Duration] is [None] for the nil pointer and
    [Some x] for a pointer to a cell that holds [x]. *)
Definition Duration_Duration (d : option Duration) : Z :=
  match d with
  | None => 0
  | Some x => x
  end.

Definition Duration_String (d : option Duration) : string :=
  match d with
  | None => EmptyString
  | Some x => time_Duration_String x
  end.

(** Returns the cell of the receiver after the call, and the error. *)
Definition UnmarshalText (d : option Duration) (text : string)
  : Outcome (option Duration * option error) :=
  match time_ParseDuration text with
  | inl err => Returns (d, Some (Errorf "can't parse duration" err))
  | inr t =>
      match d with
      | None => Panics
      | Some _ => Returns (Some t, None)
      end
  end.

Definition UnmarshalYAML (d : option Duration) (value : Node)
  : Outcome (option Duration * option error) :=
  match Node_Decode_string value with
  | inl err => Returns (d, Some (Errorf "can't unmarshal duration" err))
  | inr s => UnmarshalText d s
  end.
End DurationMethods.

(** ** A reference world

    An executable world for the examples: files and environment entries
    are given as lists, the YAML and JSON decoders as tables over the
    documents the examples use, and the two environment-style readers
    follow the koanf [dotenv] parser and [env] provider: every raw pair
    goes through the callback, a pair whose key the callback blanked is
    dropped, and the flat map is unflattened on the delimiter. *)

(** The line feed and the double quote. *)
Definition nl : string := String (ascii_of_nat 10) EmptyString.
Definition dq : string := String (ascii_of_nat 34) EmptyString.

(** [strings.Split(s, sep)] for a separator that is not empty; [skip]
    counts the bytes of a separator still to be passed, [cur] is the
    piece read so far. *)
Fixpoint Split_from (sep : string) (skip : nat) (cur s : string) : list string :=
  match s with
  | EmptyString => [cur]
  | String c s' =>
      match skip with
      | S n => Split_from sep n cur s'
      | O =>
          if String.prefix sep s
          then cur :: Split_from sep (String.length sep - 1) EmptyString s'
          else Split_from sep O (cur +:+ String c EmptyString) s'
      end
  end.

Definition Split (s sep : string) : list string := Split_from sep 0 EmptyString s.

(** [strings.SplitN(s, "=", 2)] when [s] holds the separator. *)
Fixpoint cut_equals (s : string) : option (string * string) :=
  match s with
  | EmptyString => None
  | String c s' =>
      if Ascii.eqb c "="%char then Some (EmptyString, s')
      else match cut_equals s' with
           | Some (a, b) => Some (String c a, b)
           | None => None
           end
  end.

(** One round of the loop of [maps.Unflatten]: walk the key parts down
    from [m], creating the maps that are missing, and assign the value
    under the last part.  A part that holds a value that is not a map is
    stepped over. *)
Fixpoint put (parts : list string) (v : Value) (m : Tree) : Tree :=
  match parts with
  | [] => m
  | k :: rest =>
      match rest with
      | [] => <[k := v]> m
      | _ :: _ =>
          match m !! k with
          | None => <[k := VMap (put rest v ∅)]> m
          | Some (VMap n) => <[k := VMap (put rest v n)]> m
          | Some _ => put rest v m
          end
      end
  end.

(** [maps.Unflatten(m, delim)], the entries of [m] taken in the order of
    the list. *)
Definition Unflatten (entries : list (string * Value)) (delim : string) : Tree :=
  fold_left (fun out kv => put (Split kv.1 delim) kv.2 out) entries ∅.

(** The flat map both readers build from the raw pairs. *)
Definition collect (cb : string -> string -> string * Value)
    (pairs : list (string * string)) : gmap string Value :=
  fold_left
    (fun mp kv =>
       let (key, value) := cb kv.1 kv.2 in
       if decide (key = EmptyString) then mp else <[key := value]> mp)
    pairs ∅.

(** A dotenv document with one [KEY=value] per line, blank lines and
    lines that start with [#] ignored. *)
Fixpoint dotenv_lines (lines : list string) : error + list (string * string) :=
  match lines with
  | [] => inr []
  | line :: rest =>
      if decide (line = EmptyString) then dotenv_lines rest
      else if HasPrefix line "#" then dotenv_lines rest
      else match cut_equals line with
           | None => inl (errors_New "unexpected character in variable name")
           | Some kv =>
               match dotenv_lines rest with
               | inl err => inl err
               | inr r => inr (kv :: r)
               end
           end
  end.

Definition ref_dotenv_Unmarshal (cb : string -> string -> string * Value)
    (b : string) : error + Tree :=
  match dotenv_lines (Split b nl) with
  | inl err => inl err
  | inr r => inr (Unflatten (map_to_list (collect cb r)) "__")
  end.

Definition ref_env_Read (environ : list string)
    (cb : string -> string -> string * Value) : error + Tree :=
  inr (Unflatten (map_to_list (collect cb (omap cut_equals environ))) "__").

(** A decoder given by the documents it accepts. *)
Definition table {A} (docs : list (string * A)) (what : string) (s : string) : error + A :=
  match list_find (fun d => d.1 = s) docs with
  | Some (_, d) => inr d.2
  | None => inl (errors_New what)
  end.

Record Fixture := {
  files : list (string * string);
  environ : list string;
  yaml_docs : list (string * Tree);
  json_objects : list (string * Tree);
  json_arrays : list (string * list Value)
}.

Definition world_of (fx : Fixture) : World :=
  {| ReadFile := fun path =>
       match list_find (fun f => f.1 = path) (files fx) with
       | Some (_, f) => inr f.2
       | None => inl (PathError "open" path ErrNotExist)
       end;
     yaml_Unmarshal := table (yaml_docs fx) "yaml: did not find expected node content";
     dotenv_Unmarshal := ref_dotenv_Unmarshal;
     env_Read := ref_env_Read (environ fx);
     unicode_lower := fun s => s;
     json_map := table (json_objects fx) "invalid character";
     json_slice := table (json_arrays fx) "invalid character" |}.

(** Decoding into a target of type [map[string]any]: every top-level
    key of the tree is written into the target. *)
Definition Unmarshal_any (k : Koanf) (c : Tree) : option error * Tree := (None, k ∪ c).

(** [strings.TrimSpace], for ASCII white space. *)
Definition is_space (c : ascii) : bool :=
  let n := nat_of_ascii c in
  ((9 <=? n)%nat && (n <=? 13)%nat) || (n =? 32)%nat.

Fixpoint TrimLeft (s : string) : string :=
  match s with
  | EmptyString => EmptyString
  | String c s' => if is_space c then TrimLeft s' else s
  end.

Fixpoint TrimRight (s : string) : string :=
  match s with
  | EmptyString => EmptyString
  | String c s' =>
      match TrimRight s' with
      | EmptyString => if is_space c then EmptyString else String c EmptyString
      | t => String c t
      end
  end.

Definition TrimSpace (s : string) : string := TrimRight (TrimLeft s).

(** [strconv.Atoi] on an optional minus sign and decimal digits. *)
Fixpoint digits (s : string) (acc : Z) : option Z :=
  match s with
  | EmptyString => Some acc
  | String c s' =>
      let n := nat_of_ascii c in
      if (48 <=? n)%nat && (n <=? 57)%nat
      then digits s' (10 * acc + Z.of_nat (n - 48))
      else None
  end.

Definition Atoi (s : string) : option Z :=
  match s with
  | EmptyString => None
  | String c s' =>
      if Ascii.eqb c "-"%char
      then match s' with
           | EmptyString => None
           | _ => Z.opp <$> digits s' 0
           end
      else digits s 0
  end.

(** Decoding into a target with the one integer field [server.port]: an
    integer is stored, a string when it is a decimal numeral, and any
    other value is a conversion failure that leaves the field. *)
Definition Unmarshal_port (k : Koanf) (c : Z) : option error * Z :=
  match get ["server"; "port"] (VMap k) with
  | None => (None, c)
  | Some (VInt n) => (None, n)
  | Some (VString s) =>
      match Atoi s with
      | Some n => (None, n)
      | None => (Some (errors_New "cannot parse 'server.port' as int"), c)
      end
  | Some _ => (Some (errors_New "'server.port' expected type 'int'"), c)
  end.

(** The field of a [map[string]any] target a key path of length one
    names. *)
Definition field_any (p : list string) (c : Tree) : option Value :=
  match p with
  | [k] => c !! k
  | _ => None
  end.

(** *** The worlds of the examples *)

(** The structured file of [TestLoadWithLocalYAMLOption]. *)
Definition config_yaml : string :=
  "database:" +:+ nl +:+
  "  host: yaml-host" +:+ nl +:+
  "  port: 3306" +:+ nl +:+
  "  username: yaml-user" +:+ nl +:+
  "  password: yaml-pass" +:+ nl +:+
  "server:" +:+ nl +:+
  "  port: 9090" +:+ nl +:+
  "feature_flags:" +:+ nl +:+
  "  debug: true" +:+ nl +:+
  "  new_feature: false".

Definition config_tree : Tree :=
  {[ "database" := VMap {[ "host" := VString "yaml-host";
                           "port" := VInt 3306;
                           "username" := VString "yaml-user";
                           "password" := VString "yaml-pass" ]};
     "server" := VMap {[ "port" := VInt 9090 ]};
     "feature_flags" := VMap {[ "debug" := VBool true;
                                "new_feature" := VBool false ]} ]}.

(** The three sources of [TestConfigurationPrecedence], with the
    structured file above. *)
Definition fx_precedence : Fixture :=
  {| files :=
       [("config.yaml", config_yaml);
        (".env", "DATABASE__HOST=env-file-host" +:+ nl +:+
                 "DATABASE__PORT=5433" +:+ nl +:+
                 "SERVER__PORT=8080")];
     environ := ["DATABASE__HOST=env-host"; "DATABASE__PORT=9999"];
     yaml_docs := [(config_yaml, config_tree)];
     json_objects := [];
     json_arrays := [] |}.

(** A dotenv file that sets [DATABASE__HOST] under an environment that
    sets [DATABASE]. *)
Definition fx_shadow : Fixture :=
  {| files := [(".env", "DATABASE__HOST=h")];
     environ := ["DATABASE=x"];
     yaml_docs := [];
     json_objects := [];
     json_arrays := [] |}.

(** The structured file of [TestYAMLLoadErrorPropagation]. *)
Definition fx_bad_yaml : Fixture :=
  {| files := [("invalid.yaml", "invalid: yaml: content: [")];
     environ := ["SERVER__PORT=8080"];
     yaml_docs := [];
     json_objects := [];
     json_arrays := [] |}.

(** A dotenv file with a line that is no pair. *)
Definition fx_bad_dotenv : Fixture :=
  {| files := [(".env", "SERVER__PORT")];
     environ := ["SERVER__PORT=8080"];
     yaml_docs := [];
     json_objects := [];
     json_arrays := [] |}.

(** A port that is no number, as in [TestUnmarshalingErrorHandling]. *)
Definition port_yaml : string :=
  "server:" +:+ nl +:+ "  port: invalid_port_number".

Definition fx_bad_port : Fixture :=
  {| files := [("invalid.yaml", port_yaml)];
     environ := [];
     yaml_docs := [(port_yaml, {[ "server" := VMap {[ "port" := VString "invalid_port_number" ]} ]})];
     json_objects := [];
     json_arrays := [] |}.

(** No file at all, and the environment of [TestYAMLPlusEnvPrecedence]. *)
Definition fx_env_only : Fixture :=
  {| files := [];
     environ := ["SERVER__PORT=9999"];
     yaml_docs := [];
     json_objects := [];
     json_arrays := [] |}.

(** Nothing anywhere. *)
Definition fx_nothing : Fixture :=
  {| files := []; environ := []; yaml_docs := []; json_objects := []; json_arrays := [] |}.

(** A world whose environment cannot be enumerated. *)
Definition w_env_fails : World :=
  let w := world_of fx_nothing in
  {| ReadFile := ReadFile w;
     yaml_Unmarshal := yaml_Unmarshal w;
     dotenv_Unmarshal := dotenv_Unmarshal w;
     env_Read := fun _ => inl (errors_New "environment unavailable");
     unicode_lower := unicode_lower w;
     json_map := json_map w;
     json_slice := json_slice w |}.

(** The decoder of JSON objects that knows the empty object and the
    object of [TestLoadWithNoOptions]. *)
Definition json_objects_ref : string -> error + Tree :=
  table [("{}", ∅);
         ("{" +:+ dq +:+ "debug" +:+ dq +:+ ": true}", {[ "debug" := VBool true ]})]
        "invalid character".

(** The decoder of JSON arrays that knows the empty array. *)
Definition json_arrays_ref : string -> error + list Value :=
  table [("[]", [])] "invalid character".

(** *** The coercion as the specification words it

    Section 4.1 of the specification tests the trimmed value for the
    delimiters; [envTransform] tests the value as it is. *)
Definition coerce_trimmed (json_Unmarshal_map : string -> error + Tree)
    (json_Unmarshal_slice : string -> error + list Value) (v : string) : Value :=
  let t := TrimSpace v in
  let plain := VString v in
  let array :=
    if HasPrefix t "[" && HasSuffix t "]" then
      match json_Unmarshal_slice t with
      | inr a => VSlice a
      | inl _ => plain
      end
    else plain in
  if HasPrefix t "{" && HasSuffix t "}" then
    match json_Unmarshal_map t with
    | inr m => VMap m
    | inl _ => array
    end
  else array.

(** A structured file whose keys are capitalised. *)
Definition cased_yaml : string := "Server:" +:+ nl +:+ "  Port: 9090".

Definition fx_cased : Fixture :=
  {| files := [("config.yaml", cased_yaml)];
     environ := ["Server__Port=8080"];
     yaml_docs := [(cased_yaml, {[ "Server" := VMap {[ "Port" := VInt 9090 ]} ]})];
     json_objects := [];
     json_arrays := [] |}.

(** [time.ParseDuration] on the two inputs of the examples. *)
Definition ParseDuration_ref (s : string) : error + Z :=
  if decide (s = "1s") then inr 1000000000
  else if decide (s = "1.5h") then inr 5400000000000
  else inl (errors_New ("time: invalid duration " +:+ dq +:+ s +:+ dq)).

(** Runs the reads of a stage. *)
Ltac run_io :=
  unfold Koanf_Load, file_Provider, env_Provider, file_tree, skip_not_found;
  unfold mbind, IO_bind, io_bind, io_ret;
  cbn [ReadBytes Read].

(** The environment and the dotenv file of [TestLoadWithNoOptions]. *)
Definition flags_json : string := "{" +:+ dq +:+ "debug" +:+ dq +:+ ": true}".

Definition fx_no_options : Fixture :=
  {| files :=
       [(".env", "DATABASE__HOST=env-file-host" +:+ nl +:+
                 "DATABASE__PORT=5433" +:+ nl +:+
                 "FEATURE_FLAGS=" +:+ flags_json)];
     environ := ["DATABASE__HOST=localhost"; "DATABASE__PORT=5432"; "SERVER__PORT=8080"];
     yaml_docs := [];
     json_objects := [(flags_json, {[ "debug" := VBool true ]})];
     json_arrays := [] |}.

(** * Properties *)

(** ** The merge store *)

Lemma mergeV_map (a b : Tree) : mergeV (VMap a) (VMap b) = VMap (Merge a b).
Proof. reflexivity. Qed.

Lemma mergeV_not_map (av bv : Value) : is_map av = false -> mergeV av bv = av.
Proof. destruct av; try reflexivity. discriminate. Qed.

Lemma mergeV_onto_not_map (av bv : Value) : is_map bv = false -> mergeV av bv = av.
Proof. destruct av, bv; try reflexivity. discriminate. Qed.

Lemma Merge_lookup (a b : Tree) (k : string) :
  Merge a b !! k =
  match a !! k, b !! k with
  | Some x, Some y => Some (mergeV x y)
  | Some x, None => Some x
  | None, o => o
  end.
Proof.
  unfold Merge. rewrite lookup_union_with.
  destruct (a !! k), (b !! k); reflexivity.
Qed.

Lemma Merge_empty_r (a : Tree) : Merge a ∅ = a.
Proof.
  apply map_eq. intros k. rewrite Merge_lookup, lookup_empty.
  destruct (a !! k); reflexivity.
Qed.

Lemma Merge_empty_l (b : Tree) : Merge ∅ b = b.
Proof.
  apply map_eq. intros k. rewrite Merge_lookup, lookup_empty. reflexivity.
Qed.

(** The value a merge leaves at a key path, from the values the two
    merged trees hold there. *)
Lemma get_mergeV (p : list string) : forall av bv : Value,
  get p (mergeV av bv) =
  match get p av with
  | Some x => Some (match get p bv with Some y => mergeV x y | None => x end)
  | None => if blocked p av then None else get p bv
  end.
Proof.
  induction p as [|k rest IH]; intros av bv; [reflexivity|].
  destruct av as [| | | | |l|am]; try reflexivity.
  destruct bv as [| | | | |l|bm];
    try (cbn [mergeV get blocked]; destruct (am !! k) as [x|];
         [destruct (get rest x); [reflexivity|destruct (blocked rest x); reflexivity]
         |reflexivity]).
  rewrite mergeV_map. cbn [get blocked]. rewrite Merge_lookup.
  destruct (am !! k) as [x|], (bm !! k) as [y|]; try reflexivity.
  - apply IH.
  - destruct (get rest x); [reflexivity|destruct (blocked rest x); reflexivity].
Qed.

Lemma get_Merge (p : list string) (a b : Tree) :
  get p (VMap (Merge a b)) =
  match get p (VMap a) with
  | Some x => Some (match get p (VMap b) with Some y => mergeV x y | None => x end)
  | None => if blocked p (VMap a) then None else get p (VMap b)
  end.
Proof. rewrite <- mergeV_map. apply get_mergeV. Qed.

(** The later source wins wherever it holds a value that is not a map. *)
Lemma get_Merge_later (p : list string) (a b : Tree) (v : Value) :
  get p (VMap a) = Some v -> is_map v = false -> get p (VMap (Merge a b)) = Some v.
Proof.
  intros Ha Hv. rewrite get_Merge, Ha.
  destruct (get p (VMap b)); [rewrite mergeV_not_map by done|]; reflexivity.
Qed.

(** The earlier source stays wherever the later one has nothing on the
    path. *)
Lemma get_Merge_earlier (p : list string) (a b : Tree) :
  get p (VMap a) = None -> blocked p (VMap a) = false ->
  get p (VMap (Merge a b)) = get p (VMap b).
Proof. intros Ha Hb. rewrite get_Merge, Ha, Hb. reflexivity. Qed.

(** A merge invents no key path. *)
Lemma get_Merge_None (p : list string) (a b : Tree) :
  get p (VMap a) = None -> get p (VMap b) = None ->
  get p (VMap (Merge a b)) = None.
Proof.
  intros Ha Hb. rewrite get_Merge, Ha, Hb. destruct (blocked p (VMap a)); reflexivity.
Qed.

(** ** The stages of [Load] *)

Section Stages.
Variable w : World.

(** A file stage in terms of what it ingests: the error it returns, the
    store it leaves and the read it performs. *)
Lemma Koanf_Load_file (path : string) (pa : Parser) (k : Koanf) (log : list Event) :
  Koanf_Load (file_Provider w path) (Some pa) k log =
  (match file_tree w path pa with
   | inl err => (Some err, k)
   | inr t => (None, Merge t k)
   end, log ++ [EvReadFile path]).
Proof.
  run_io. destruct (ReadFile w path) as [err|b]; [reflexivity|].
  destruct (pa b); reflexivity.
Qed.

Lemma loadFromYAML_source (path : string) (k : Koanf) (log : list Event) :
  loadFromYAML w path k log =
  (match yaml_source w path with
   | inl err => (Some (Errorf "load yaml" err), k)
   | inr t => (None, Merge t k)
   end, log ++ yaml_reads path).
Proof.
  unfold loadFromYAML, yaml_source, yaml_reads. case_decide as Hp.
  - unfold io_ret. rewrite Merge_empty_l, app_nil_r. reflexivity.
  - unfold mbind, IO_bind, io_bind. rewrite Koanf_Load_file.
    unfold skip_not_found, io_ret.
    destruct (file_tree w path (yaml_Unmarshal w)) as [err|t]; [|reflexivity].
    destruct (errors_Is err ErrNotExist); cbn; [rewrite Merge_empty_l|]; reflexivity.
Qed.

Lemma loadDotenv_source (k : Koanf) (log : list Event) :
  loadDotenv w k log =
  (match dotenv_source w with
   | inl err => (Some (Errorf "load dotenv" err), k)
   | inr t => (None, Merge t k)
   end, log ++ [EvReadFile ".env"]).
Proof.
  unfold loadDotenv, dotenv_source.
  unfold mbind, IO_bind, io_bind. rewrite Koanf_Load_file.
  unfold skip_not_found, io_ret.
  destruct (file_tree w ".env" _) as [err|t]; [|reflexivity].
  destruct (errors_Is err ErrNotExist); cbn; [rewrite Merge_empty_l|]; reflexivity.
Qed.

Lemma loadEnv_source (k : Koanf) (log : list Event) :
  loadEnv w k log =
  (match env_source w with
   | inl err => (Some (Errorf "load env" err), k)
   | inr t => (None, Merge t k)
   end, log ++ [EvEnviron]).
Proof.
  unfold loadEnv, env_source. run_io.
  destruct (env_Read w (transform w)); reflexivity.
Qed.

(** A stage never reports a file that does not exist. *)
Lemma skip_not_found_error (r : error + Tree) (err : error) :
  skip_not_found r = inl err -> r = inl err /\ errors_Is err ErrNotExist = false.
Proof.
  destruct r as [e|t]; cbn; [|discriminate].
  destruct (errors_Is e ErrNotExist) eqn:He; [discriminate|].
  intros [= <-]. auto.
Qed.

Variable T : Type.
Variable Unmarshal : Koanf -> T -> option error * T.

(** [Load] in terms of what its stages ingest. *)
Lemma Load_sources (c : T) (opts : list Option) (log : list Event) :
  let path := withYaml (apply new_options opts) in
  Load w T Unmarshal c opts log =
  match yaml_source w path with
  | inl err => ((Some (Errorf "load yaml" err), c), log ++ yaml_reads path)
  | inr ty =>
    match dotenv_source w with
    | inl err =>
        ((Some (Errorf "load dotenv" err), c),
         (log ++ yaml_reads path) ++ [EvReadFile ".env"])
    | inr td =>
      match env_source w with
      | inl err =>
          ((Some (Errorf "load env" err), c),
           ((log ++ yaml_reads path) ++ [EvReadFile ".env"]) ++ [EvEnviron])
      | inr te =>
          (materialized (Unmarshal (Merge te (Merge td ty)) c),
           ((log ++ yaml_reads path) ++ [EvReadFile ".env"]) ++ [EvEnviron])
      end
    end
  end.
Proof.
  intros path. unfold Load. cbv zeta. fold path.
  unfold mbind, IO_bind, io_bind at 1. rewrite loadFromYAML_source.
  unfold koanf_New.
  destruct (yaml_source w path) as [err|ty]; [reflexivity|].
  rewrite Merge_empty_r.
  unfold io_bind at 1. rewrite loadDotenv_source.
  destruct (dotenv_source w) as [err|td]; [reflexivity|].
  unfold io_bind at 1. rewrite loadEnv_source.
  destruct (env_source w) as [err|te]; [reflexivity|].
  unfold materialized, io_ret.
  destruct (Unmarshal _ c) as [[err|] c']; reflexivity.
Qed.
End Stages.

(** ** Errors built by the stages *)

Lemma errors_Is_refl (e : error) : errors_Is e e = true.
Proof. destruct e; cbn; case_decide; congruence. Qed.

(** An error wrapped with a tag shows the tag in its message and keeps
    its cause on the [Unwrap] chain. *)
Lemma Errorf_wraps (tag : string) (cause : error) :
  Contains (Error (Errorf tag cause)) tag /\
  Unwrap (Errorf tag cause) = Some cause /\
  errors_Is (Errorf tag cause) cause = true.
Proof.
  split; [|split].
  - exists EmptyString, (": " +:+ Error cause). reflexivity.
  - reflexivity.
  - cbn. case_decide; [reflexivity|apply errors_Is_refl].
Qed.

(** ** Precedence *)

(** C1 (as amended).  When the three stages have ingested the trees
    [ty] (structured file), [td] (dotenv file) and [te] (environment),
    [Load] hands the decoder a tree [k] in which, for every key path [p]
    to a value that is not a map: the value of the environment is found
    when the environment defines [p]; the value of the dotenv file when
    the environment does not define [p] and holds no value other than a
    map above [p]; the value of the structured file when neither of the
    two defines [p] nor holds a value other than a map above [p]. *)
Theorem Load_precedence (w : World) (T : Type)
    (Unmarshal : Koanf -> T -> option error * T) (c : T) (opts : list Option)
    (log : list Event) (ty td te : Tree) :
  yaml_source w (withYaml (apply new_options opts)) = inr ty ->
  dotenv_source w = inr td ->
  env_source w = inr te ->
  exists k : Koanf,
    (Load w T Unmarshal c opts log).1 = materialized (Unmarshal k c) /\
    forall (p : list string) (v : Value), is_map v = false ->
      (get p (VMap te) = Some v -> get p (VMap k) = Some v) /\
      (get p (VMap te) = None -> blocked p (VMap te) = false ->
       get p (VMap td) = Some v -> get p (VMap k) = Some v) /\
      (get p (VMap te) = None -> blocked p (VMap te) = false ->
       get p (VMap td) = None -> blocked p (VMap td) = false ->
       get p (VMap ty) = Some v -> get p (VMap k) = Some v).
Proof.
  intros Hy Hd He. exists (Merge te (Merge td ty)). split.
  - rewrite Load_sources. cbv zeta. rewrite Hy, Hd, He. reflexivity.
  - intros p v Hv. split; [|split].
    + intros Hte. by apply get_Merge_later.
    + intros Hte Hbe Htd. rewrite get_Merge_earlier by done.
      by apply get_Merge_later.
    + intros Hte Hbe Htd Hbd Hty.
      rewrite !get_Merge_earlier by done. exact Hty.
Qed.

(** The trees the stages of an example ingest. *)
Lemma fx_precedence_sources :
  let w := world_of fx_precedence in
  yaml_source w "config.yaml" = inr config_tree /\
  dotenv_source w =
    inr {[ "database" := VMap {[ "host" := VString "env-file-host";
                                "port" := VString "5433" ]};
           "server" := VMap {[ "port" := VString "8080" ]} ]} /\
  env_source w =
    inr {[ "database" := VMap {[ "host" := VString "env-host";
                                "port" := VString "9999" ]} ]}.
Proof. cbv zeta. repeat split; vm_compute; reflexivity. Qed.

(** With the sources of [TestConfigurationPrecedence]: the host comes
    from the environment, the port of the server from the dotenv file,
    the user name from the structured file. *)
Lemma Load_precedence_witness :
  exists k : Koanf,
    (Load (world_of fx_precedence) Tree Unmarshal_any ∅
       [WithLocalYAML "config.yaml"] []).1 = materialized (Unmarshal_any k ∅) /\
    get ["database"; "host"] (VMap k) = Some (VString "env-host") /\
    get ["server"; "port"] (VMap k) = Some (VString "8080") /\
    get ["database"; "username"] (VMap k) = Some (VString "yaml-user").
Proof.
  destruct fx_precedence_sources as (Hy & Hd & He).
  destruct (Load_precedence (world_of fx_precedence) Tree Unmarshal_any ∅
              [WithLocalYAML "config.yaml"] [] _ _ _ Hy Hd He) as (k & Hk & Hp).
  exists k. split; [exact Hk|]. split; [|split].
  - apply (proj1 (Hp ["database"; "host"] (VString "env-host") eq_refl)).
    vm_compute; reflexivity.
  - apply (proj1 (proj2 (Hp ["server"; "port"] (VString "8080") eq_refl)));
      vm_compute; reflexivity.
  - apply (proj2 (proj2 (Hp ["database"; "username"] (VString "yaml-user") eq_refl)));
      vm_compute; reflexivity.
Defined.

(** C1, as stated, fails: the dotenv file defines [database.host], the
    environment does not, and the target does not receive the value of
    the dotenv file, because the environment holds a string under
    [database]. *)
Lemma Load_precedence_counterexample :
  exists td te : Tree,
    dotenv_source (world_of fx_shadow) = inr td /\
    env_source (world_of fx_shadow) = inr te /\
    get ["database"; "host"] (VMap td) = Some (VString "h") /\
    get ["database"; "host"] (VMap te) = None /\
    Load (world_of fx_shadow) Tree Unmarshal_any ∅ [] [] =
      ((None, {[ "database" := VString "x" ]}), [EvReadFile ".env"; EvEnviron]) /\
    get ["database"; "host"] (VMap {[ "database" := VString "x" ]}) = None.
Proof.
  exists {[ "database" := VMap {[ "host" := VString "h" ]} ]},
         {[ "database" := VString "x" ]}.
  repeat split; vm_compute; reflexivity.
Qed.

(** [TestLoadWithNoOptions], read off the tree the target receives: the
    environment overrides the dotenv file, and the flags of the dotenv
    file arrive as a map. *)
Example Load_no_options :
  exists k : Tree,
    Load (world_of fx_no_options) Tree Unmarshal_any ∅ [] [] =
      ((None, k), [EvReadFile ".env"; EvEnviron]) /\
    get ["database"; "host"] (VMap k) = Some (VString "localhost") /\
    get ["database"; "port"] (VMap k) = Some (VString "5432") /\
    get ["server"; "port"] (VMap k) = Some (VString "8080") /\
    get ["feature_flags"; "debug"] (VMap k) = Some (VBool true).
Proof. eexists. repeat split; vm_compute; reflexivity. Qed.

(** ** Failing fast *)

(** C2.  The first stage that reports an error (for the two file stages:
    an error other than file-not-found) ends [Load]: the reads of the
    later stages are not performed and the target is not written; the
    error returned is the error of that one stage, wrapped with the tag
    of the stage, which its message shows, and with the cause on its
    [Unwrap] chain. *)
Theorem Load_fail_fast (w : World) (T : Type)
    (Unmarshal : Koanf -> T -> option error * T) (c : T) (opts : list Option)
    (log : list Event) :
  let path := withYaml (apply new_options opts) in
  (forall err, yaml_source w path = inl err ->
     errors_Is err ErrNotExist = false /\
     Load w T Unmarshal c opts log =
       ((Some (Errorf "load yaml" err), c), log ++ yaml_reads path)) /\
  (forall ty err, yaml_source w path = inr ty -> dotenv_source w = inl err ->
     errors_Is err ErrNotExist = false /\
     Load w T Unmarshal c opts log =
       ((Some (Errorf "load dotenv" err), c),
        log ++ yaml_reads path ++ [EvReadFile ".env"])) /\
  (forall ty td err, yaml_source w path = inr ty -> dotenv_source w = inr td ->
     env_source w = inl err ->
     Load w T Unmarshal c opts log =
       ((Some (Errorf "load env" err), c),
        log ++ yaml_reads path ++ [EvReadFile ".env"; EvEnviron])) /\
  (forall ty td te err c', yaml_source w path = inr ty -> dotenv_source w = inr td ->
     env_source w = inr te ->
     Unmarshal (Merge te (Merge td ty)) c = (Some err, c') ->
     Load w T Unmarshal c opts log =
       ((Some (Errorf "unmarshal" err), c'),
        log ++ yaml_reads path ++ [EvReadFile ".env"; EvEnviron])) /\
  (forall tag cause,
     Contains (Error (Errorf tag cause)) tag /\
     Unwrap (Errorf tag cause) = Some cause /\
     errors_Is (Errorf tag cause) cause = true).
Proof.
  intros path. pose proof (Load_sources w T Unmarshal c opts log) as HL.
  cbv zeta in HL. fold path in HL.
  split; [|split; [|split; [|split]]].
  - intros err Hy. split.
    + unfold yaml_source in Hy. case_decide; [discriminate|].
      by apply skip_not_found_error in Hy as [_ ?].
    + rewrite HL, Hy. reflexivity.
  - intros ty err Hy Hd. split.
    + by apply skip_not_found_error in Hd as [_ ?].
    + rewrite HL, Hy, Hd, <- app_assoc. reflexivity.
  - intros ty td err Hy Hd He.
    rewrite HL, Hy, Hd, He, <- !app_assoc. reflexivity.
  - intros ty td te err c' Hy Hd He HU.
    rewrite HL, Hy, Hd, He, HU, <- !app_assoc. reflexivity.
  - apply Errorf_wraps.
Qed.

(** Each of the four stages failing, in a world of its own: the invalid
    structured file of [TestYAMLLoadErrorPropagation], a dotenv file
    with a line that is no pair, an environment that cannot be
    enumerated, and the port of [TestUnmarshalingErrorHandling]. *)
Lemma Load_fail_fast_witness :
  Load (world_of fx_bad_yaml) Z Unmarshal_port 0 [WithLocalYAML "invalid.yaml"] [] =
    ((Some (Errorf "load yaml" (errors_New "yaml: did not find expected node content")), 0),
     [EvReadFile "invalid.yaml"]) /\
  Load (world_of fx_bad_dotenv) Z Unmarshal_port 0 [] [] =
    ((Some (Errorf "load dotenv" (errors_New "unexpected character in variable name")), 0),
     [EvReadFile ".env"]) /\
  Load w_env_fails Z Unmarshal_port 0 [] [] =
    ((Some (Errorf "load env" (errors_New "environment unavailable")), 0),
     [EvReadFile ".env"; EvEnviron]) /\
  Load (world_of fx_bad_port) Z Unmarshal_port 0 [WithLocalYAML "invalid.yaml"] [] =
    ((Some (Errorf "unmarshal" (errors_New "cannot parse 'server.port' as int")), 0),
     [EvReadFile "invalid.yaml"; EvReadFile ".env"; EvEnviron]).
Proof.
  split; [|split; [|split]].
  - apply (proj1 (Load_fail_fast (world_of fx_bad_yaml) Z Unmarshal_port 0
                    [WithLocalYAML "invalid.yaml"] [])).
    vm_compute; reflexivity.
  - apply (proj1 (proj2 (Load_fail_fast (world_of fx_bad_dotenv) Z Unmarshal_port 0 [] []))
             ∅); vm_compute; reflexivity.
  - apply (proj1 (proj2 (proj2 (Load_fail_fast w_env_fails Z Unmarshal_port 0 [] [])))
             ∅ ∅); vm_compute; reflexivity.
  - apply (proj1 (proj2 (proj2 (proj2
             (Load_fail_fast (world_of fx_bad_port) Z Unmarshal_port 0
                [WithLocalYAML "invalid.yaml"] []))))
             {[ "server" := VMap {[ "port" := VString "invalid_port_number" ]} ]} ∅ ∅);
      vm_compute; reflexivity.
Defined.

(** ** Files that do not exist *)

Lemma yaml_source_not_found (w : World) (p : string) (err : error) :
  ReadFile w p = inl err -> errors_Is err ErrNotExist = true ->
  yaml_source w p = inr ∅.
Proof.
  intros Hr Hn. unfold yaml_source, file_tree. case_decide; [reflexivity|].
  rewrite Hr. cbn. rewrite Hn. reflexivity.
Qed.

(** C3.  When the path names no file, the structured-file stage returns
    no error and leaves the store as it was, and [Load] returns the
    error and the target it returns without the option; the dotenv stage
    treats a missing [.env] the same way. *)
Theorem Load_missing_file (w : World) (T : Type)
    (Unmarshal : Koanf -> T -> option error * T) (c : T) (p : string)
    (log : list Event) (err : error) :
  ReadFile w p = inl err ->
  errors_Is err ErrNotExist = true ->
  (forall k log', (loadFromYAML w p k log').1 = (None, k)) /\
  (Load w T Unmarshal c [WithLocalYAML p] log).1 = (Load w T Unmarshal c [] log).1 /\
  (forall err', ReadFile w ".env" = inl err' -> errors_Is err' ErrNotExist = true ->
     forall k log', (loadDotenv w k log').1 = (None, k)).
Proof.
  intros Hr Hn. pose proof (yaml_source_not_found w p err Hr Hn) as Hy.
  split; [|split].
  - intros k log'. rewrite loadFromYAML_source, Hy, Merge_empty_l. reflexivity.
  - rewrite !Load_sources. cbn [apply fold_left WithLocalYAML withYaml new_options].
    rewrite Hy. unfold yaml_source at 1. rewrite decide_True by reflexivity.
    destruct (dotenv_source w); [reflexivity|].
    destruct (env_source w); reflexivity.
  - intros err' Hr' Hn' k log'. rewrite loadDotenv_source.
    unfold dotenv_source, file_tree. rewrite Hr'. cbn. rewrite Hn', Merge_empty_l.
    reflexivity.
Qed.

(** [TestLoadWithNonExistentFile], under the environment of
    [TestYAMLPlusEnvPrecedence]: no file exists, and the port is the
    port of the environment with the option and without it. *)
Lemma Load_missing_file_witness :
  (Load (world_of fx_env_only) Z Unmarshal_port 0
     [WithLocalYAML "does-not-exist.yaml"] []).1 = (None, 9999) /\
  (Load (world_of fx_env_only) Z Unmarshal_port 0 [] []).1 = (None, 9999).
Proof.
  assert (H : (Load (world_of fx_env_only) Z Unmarshal_port 0 [] []).1 = (None, 9999))
    by (vm_compute; reflexivity).
  split; [|exact H].
  rewrite <- H.
  apply (Load_missing_file (world_of fx_env_only) Z Unmarshal_port 0
           "does-not-exist.yaml" [] (PathError "open" "does-not-exist.yaml" ErrNotExist));
    vm_compute; reflexivity.
Defined.

(** ** The empty path *)

(** C9.  [WithLocalYAML] with the empty path leaves the options as
    [new(options)] made them, the structured-file stage then returns at
    once, without a read and without a change of the store, and [Load]
    is the same call as [Load] without options, reads included. *)
Theorem Load_empty_path (w : World) (T : Type)
    (Unmarshal : Koanf -> T -> option error * T) (c : T) (log : list Event) :
  apply new_options [WithLocalYAML EmptyString] = apply new_options [] /\
  (forall k : Koanf, loadFromYAML w EmptyString k log = ((None, k), log)) /\
  Load w T Unmarshal c [WithLocalYAML EmptyString] log = Load w T Unmarshal c [] log.
Proof. repeat split. Qed.

(** ** The transformation of a key and a value *)

Section TransformFacts.
Variable lower : string -> string.
Variable jm : string -> error + Tree.
Variable js : string -> error + list Value.

Lemma envTransform_key (k v : string) :
  (envTransform lower jm js k v).1 = ToLower lower k.
Proof.
  unfold envTransform.
  destruct (HasPrefix v "{" && HasSuffix v "}"), (jm v),
    (HasPrefix v "[" && HasSuffix v "]"), (js v); reflexivity.
Qed.

(** C4 (as amended).  The coercion tests the value as it is, without
    trimming it: a value that starts with [{], ends with [}] and is
    decoded as a JSON object becomes the map; failing that, a value that
    starts with [[], ends with []] and is decoded as a JSON array
    becomes the sequence; any other value stays the string it was. *)
Theorem envTransform_coercion (k v : string) :
  (forall m, HasPrefix v "{" = true -> HasSuffix v "}" = true -> jm v = inr m ->
     (envTransform lower jm js k v).2 = VMap m) /\
  (forall a, (HasPrefix v "{" && HasSuffix v "}" = false \/ exists e, jm v = inl e) ->
     HasPrefix v "[" = true -> HasSuffix v "]" = true -> js v = inr a ->
     (envTransform lower jm js k v).2 = VSlice a) /\
  ((HasPrefix v "{" && HasSuffix v "}" = false \/ exists e, jm v = inl e) ->
   (HasPrefix v "[" && HasSuffix v "]" = false \/ exists e, js v = inl e) ->
   (envTransform lower jm js k v).2 = VString v).
Proof.
  unfold envTransform. split; [|split].
  - intros m -> -> ->. reflexivity.
  - intros a Hobj -> -> ->. cbn.
    destruct Hobj as [->|[e ->]]; [reflexivity|].
    destruct (HasPrefix v "{" && HasSuffix v "}"); reflexivity.
  - intros Hobj Harr.
    assert (Ha : (if HasPrefix v "[" && HasSuffix v "]"
                  then match js v with
                       | inr a => (ToLower lower k, VSlice a)
                       | inl _ => (ToLower lower k, VString v)
                       end
                  else (ToLower lower k, VString v)) = (ToLower lower k, VString v)).
    { destruct Harr as [->|[e ->]]; [reflexivity|].
      destruct (HasPrefix v "[" && HasSuffix v "]"); reflexivity. }
    cbv zeta. rewrite Ha.
    destruct Hobj as [->|[e ->]]; [reflexivity|].
    destruct (HasPrefix v "{" && HasSuffix v "}"); reflexivity.
Qed.

(** C5.  [envTransform] returns a key and a value for every input,
    whatever the decoders answer: the value is the string it was given,
    or the map or the sequence a decoder returned for it, and it is the
    string whenever both decoders fail.  The value [[] is returned as
    the string [[]. *)
Theorem envTransform_total (k v : string) :
  exists r : Value,
    envTransform lower jm js k v = (ToLower lower k, r) /\
    (r = VString v \/ (exists m, jm v = inr m /\ r = VMap m) \/
     (exists a, js v = inr a /\ r = VSlice a)) /\
    ((forall m, jm v <> inr m) -> (forall a, js v <> inr a) -> r = VString v) /\
    envTransform lower jm js k "[" = (ToLower lower k, VString "[").
Proof.
  exists (envTransform lower jm js k v).2.
  split; [|split; [|split]].
  - rewrite <- envTransform_key with (v := v). by destruct (envTransform _ _ _ _ _).
  - unfold envTransform.
    destruct (HasPrefix v "{" && HasSuffix v "}"), (jm v) as [e|m],
      (HasPrefix v "[" && HasSuffix v "]"), (js v) as [e'|a]; cbn; eauto.
  - intros Hm Ha. unfold envTransform.
    destruct (HasPrefix v "{" && HasSuffix v "}"), (jm v) as [e|m],
      (HasPrefix v "[" && HasSuffix v "]"), (js v) as [e'|a]; cbn;
      first [reflexivity | by destruct (Hm m) | by destruct (Ha a)].
  - reflexivity.
Qed.
End TransformFacts.

(** A value that is an object, a value that is an array, and a value
    that is neither, with the decoders of the examples. *)
Lemma envTransform_coercion_witness :
  (envTransform (fun s => s) json_objects_ref json_arrays_ref "FEATURE_FLAGS"
     ("{" +:+ dq +:+ "debug" +:+ dq +:+ ": true}")).2 = VMap {[ "debug" := VBool true ]} /\
  (envTransform (fun s => s) json_objects_ref json_arrays_ref "HOSTS" "[]").2 = VSlice [] /\
  (envTransform (fun s => s) json_objects_ref json_arrays_ref "PASSWORD" "{s3cret").2 =
    VString "{s3cret".
Proof.
  split; [|split].
  - apply (proj1 (envTransform_coercion (fun s => s) json_objects_ref json_arrays_ref
                    "FEATURE_FLAGS" _)); vm_compute; reflexivity.
  - apply (proj1 (proj2 (envTransform_coercion (fun s => s) json_objects_ref
                           json_arrays_ref "HOSTS" "[]")));
      first [left; vm_compute; reflexivity | vm_compute; reflexivity].
  - apply (proj2 (proj2 (envTransform_coercion (fun s => s) json_objects_ref
                           json_arrays_ref "PASSWORD" "{s3cret")));
      left; vm_compute; reflexivity.
Defined.

(** C4, as stated, fails: a value with a space before the empty object
    is a map when the delimiters are looked for in the trimmed value,
    and [envTransform] leaves it the string it was. *)
Lemma envTransform_coercion_counterexample :
  TrimSpace " {}" = "{}" /\
  json_objects_ref "{}" = inr ∅ /\
  coerce_trimmed json_objects_ref json_arrays_ref " {}" = VMap ∅ /\
  (envTransform (fun s => s) json_objects_ref json_arrays_ref "KEY" " {}").2 =
    VString " {}".
Proof. repeat split; vm_compute; reflexivity. Qed.

(** A witness of C5: a value that opens an array and does not close it. *)
Lemma envTransform_total_witness :
  envTransform (fun s => s) json_objects_ref json_arrays_ref "HOSTS" "[a, b" =
    ("hosts", VString "[a, b").
Proof.
  destruct (envTransform_total (fun s => s) json_objects_ref json_arrays_ref
              "HOSTS" "[a, b") as (r & Hr & _ & Hs & _).
  rewrite Hr. f_equal. apply Hs; intros x; vm_compute; discriminate.
Defined.

(** ** Keys *)

Lemma lower_byte_not_upper (c : ascii) : is_upper_byte (lower_byte c) = false.
Proof. destruct c as [[] [] [] [] [] [] [] []]; reflexivity. Qed.

Lemma string_map_lower_no_upper (s : string) :
  string_existsb is_upper_byte (string_map lower_byte s) = false.
Proof.
  induction s as [|c s IH]; [reflexivity|].
  cbn. rewrite lower_byte_not_upper, IH. reflexivity.
Qed.

Lemma string_map_lower_id (s : string) :
  string_existsb is_upper_byte s = false -> string_map lower_byte s = s.
Proof.
  induction s as [|c s IH]; [reflexivity|].
  cbn. intros [Hc Hs]%orb_false_elim.
  rewrite IH by done. unfold lower_byte. rewrite Hc. reflexivity.
Qed.

Lemma string_map_length (f : ascii -> ascii) (s : string) :
  String.length (string_map f s) = String.length s.
Proof. induction s as [|c s IH]; [reflexivity|]. cbn. by rewrite IH. Qed.

(** On an ASCII-only string [ToLower] lower-cases every byte. *)
Lemma ToLower_ascii (lower : string -> string) (s : string) :
  string_forallb is_ascii_byte s = true -> ToLower lower s = string_map lower_byte s.
Proof.
  intros Ha. unfold ToLower. rewrite Ha.
  destruct (string_existsb is_upper_byte s) eqn:Hu; [reflexivity|].
  cbn. symmetry. by apply string_map_lower_id.
Qed.

(** C7.  The callback both environment-style readers are given returns
    the lower-cased key: [strings.ToLower] of the raw key, which for an
    ASCII-only key is the key with every byte lower-cased, of the same
    length and without an upper-case letter.  The structured-file stage
    applies no callback: on a fresh store it leaves the tree the YAML
    decoder returned, keys as authored. *)
Theorem key_normalization (w : World) (k v : string) :
  (transform w k v).1 = ToLower (unicode_lower w) k /\
  (string_forallb is_ascii_byte k = true ->
     (transform w k v).1 = string_map lower_byte k /\
     String.length (transform w k v).1 = String.length k /\
     string_existsb is_upper_byte (transform w k v).1 = false) /\
  (forall path b ty log, path <> EmptyString -> ReadFile w path = inr b ->
     yaml_Unmarshal w b = inr ty ->
     (loadFromYAML w path koanf_New log).1 = (None, ty)).
Proof.
  unfold transform. split; [apply envTransform_key|split].
  - intros Ha. rewrite envTransform_key, ToLower_ascii by done.
    rewrite string_map_length, string_map_lower_no_upper. done.
  - intros path b ty log Hp Hr Hy. rewrite loadFromYAML_source.
    unfold yaml_source, file_tree. rewrite decide_False by done.
    rewrite Hr, Hy. cbn. unfold koanf_New. rewrite Merge_empty_r. reflexivity.
Qed.

(** The key [DATABASE__HOST] of the tests, and a structured file with
    capitalised keys, which are found as written and not in lower
    case. *)
Lemma key_normalization_witness :
  (transform (world_of fx_cased) "DATABASE__HOST" "localhost").1 = "database__host" /\
  exists store : Koanf,
    (loadFromYAML (world_of fx_cased) "config.yaml" koanf_New []).1 = (None, store) /\
    get ["Server"; "Port"] (VMap store) = Some (VInt 9090) /\
    get ["server"; "port"] (VMap store) = None.
Proof.
  pose proof (key_normalization (world_of fx_cased) "DATABASE__HOST" "localhost")
    as (_ & Hk & Hy).
  split.
  - assert (Ha : string_forallb is_ascii_byte "DATABASE__HOST" = true)
      by (vm_compute; reflexivity).
    rewrite (proj1 (Hk Ha)). vm_compute; reflexivity.
  - eexists. split.
    + apply (Hy "config.yaml" cased_yaml); [discriminate| |]; vm_compute; reflexivity.
    + split; vm_compute; reflexivity.
Defined.

(** ** Keys no source defines *)

Section AbsentKeys.
Variable w : World.
Variable T : Type.
Variable Unmarshal : Koanf -> T -> option error * T.
(** The field of the target a key path names. *)
Variable F : Type.
Variable field : list string -> T -> F.
(** Modelled from the spec: the Materializer of section 4.4, the decoder
    of the koanf library, maps the tree onto the fields of the target by
    key path.  It writes the fields whose key path the tree holds and no
    other, and it accepts the empty tree. *)
Hypothesis Unmarshal_frame : forall (k : Koanf) (c c' : T) (p : list string),
  Unmarshal k c = (None, c') -> get p (VMap k) = None -> field p c' = field p c.
Hypothesis Unmarshal_empty : forall c : T, Unmarshal ∅ c = (None, c).

(** C8.  A field whose key path none of the three ingested trees holds
    is, after a [Load] that succeeded, what it was before the call: a
    field of a fresh target stays at the zero value of its type.  When
    the three trees are empty [Load] returns no error and the target as
    it was. *)
Theorem Load_absent_key (c : T) (opts : list Option) (log : list Event)
    (ty td te : Tree) (p : list string) :
  yaml_source w (withYaml (apply new_options opts)) = inr ty ->
  dotenv_source w = inr td ->
  env_source w = inr te ->
  get p (VMap ty) = None -> get p (VMap td) = None -> get p (VMap te) = None ->
  (forall c' log', Load w T Unmarshal c opts log = ((None, c'), log') ->
     field p c' = field p c /\ forall zero, field p c = zero -> field p c' = zero) /\
  (ty = ∅ -> td = ∅ -> te = ∅ -> (Load w T Unmarshal c opts log).1 = (None, c)).
Proof.
  intros Hy Hd He Hty Htd Hte.
  pose proof (Load_sources w T Unmarshal c opts log) as HL.
  cbv zeta in HL. rewrite Hy, Hd, He in HL. split.
  - intros c' log' Hload. rewrite Hload in HL.
    assert (Hf : field p c' = field p c).
    { destruct (Unmarshal (Merge te (Merge td ty)) c) as [[err|] c''] eqn:HU;
        cbn in HL; [congruence|].
      injection HL as -> _.
      apply (Unmarshal_frame _ _ _ _ HU).
      apply get_Merge_None; [done|]. by apply get_Merge_None. }
    split; [exact Hf|]. intros zero <-. exact Hf.
  - intros -> -> ->. rewrite HL, !Merge_empty_l, Unmarshal_empty. reflexivity.
Qed.
End AbsentKeys.

Lemma Unmarshal_any_frame (k : Koanf) (c c' : Tree) (p : list string) :
  Unmarshal_any k c = (None, c') -> get p (VMap k) = None ->
  field_any p c' = field_any p c.
Proof.
  intros [= <-] Hk. destruct p as [|k0 [|k1 rest]]; try reflexivity.
  cbn in *. apply lookup_union_r. by destruct (k !! k0).
Qed.

Lemma Unmarshal_any_empty (c : Tree) : Unmarshal_any ∅ c = (None, c).
Proof. unfold Unmarshal_any. by rewrite (left_id_L ∅ (∪)). Qed.

(** With the environment of [TestYAMLPlusEnvPrecedence] and no file, the
    key [database] is in no source, and a target that has no such field
    has none after [Load]. *)
Lemma Load_absent_key_witness :
  field_any ["database"]
    (Load (world_of fx_env_only) Tree Unmarshal_any ∅ [] []).1.2 = None.
Proof.
  set (te := {[ "server" := VMap {[ "port" := VString "9999" ]} ]} : Tree).
  assert (Hy : yaml_source (world_of fx_env_only)
                 (withYaml (apply new_options [])) = inr ∅)
    by (vm_compute; reflexivity).
  assert (Hd : dotenv_source (world_of fx_env_only) = inr ∅)
    by (vm_compute; reflexivity).
  assert (He : env_source (world_of fx_env_only) = inr te)
    by (vm_compute; reflexivity).
  assert (Hte : get ["database"] (VMap te) = None) by (vm_compute; reflexivity).
  assert (Hload : Load (world_of fx_env_only) Tree Unmarshal_any ∅ [] [] =
                    ((None, te), [EvReadFile ".env"; EvEnviron]))
    by (vm_compute; reflexivity).
  rewrite Hload.
  exact (proj1 (proj1 (Load_absent_key (world_of fx_env_only) Tree Unmarshal_any
                         (option Value) field_any Unmarshal_any_frame
                         Unmarshal_any_empty ∅ [] [] ∅ ∅ te ["database"]
                         Hy Hd He eq_refl eq_refl Hte)
                  te [EvReadFile ".env"; EvEnviron] Hload)).
Defined.

(** ** Merging *)

(** C6 (as amended).  For two sources ingested in order and every key
    path [p]: a value of the later source that is not a map is the value
    after the merge; a value of the earlier source is kept when the
    later source has nothing at [p] and holds no value other than a map
    above [p] (such a value replaces all that was below it); two maps
    are merged key by key; and where the earlier source holds no map the
    value of the later source replaces it as a whole. *)
Theorem Merge_ordered_overwrite (later earlier : Tree) (p : list string) :
  (forall v, get p (VMap later) = Some v -> is_map v = false ->
     get p (VMap (Merge later earlier)) = Some v) /\
  (forall v, get p (VMap later) = None -> blocked p (VMap later) = false ->
     get p (VMap earlier) = Some v ->
     get p (VMap (Merge later earlier)) = Some v) /\
  (forall a b, get p (VMap later) = Some (VMap a) ->
     get p (VMap earlier) = Some (VMap b) ->
     get p (VMap (Merge later earlier)) = Some (VMap (Merge a b))) /\
  (forall v u, get p (VMap later) = Some v -> get p (VMap earlier) = Some u ->
     is_map u = false -> get p (VMap (Merge later earlier)) = Some v).
Proof.
  split; [|split; [|split]].
  - intros v Hl Hv. by apply get_Merge_later.
  - intros v Hl Hb He. by rewrite get_Merge_earlier.
  - intros a b Hl He. rewrite get_Merge, Hl, He. reflexivity.
  - intros v u Hl He Hu. rewrite get_Merge, Hl, He, mergeV_onto_not_map by done.
    reflexivity.
Qed.

(** An earlier source with a host, a port and a list, and a later one
    with another port and another list: the port and the list are those
    of the later source, the host stays. *)
Lemma Merge_ordered_overwrite_witness :
  let earlier : Tree :=
    {[ "database" := VMap {[ "host" := VString "yaml-host"; "port" := VInt 3306 ]};
       "hosts" := VSlice [VString "a"; VString "b"] ]} in
  let later : Tree :=
    {[ "database" := VMap {[ "port" := VString "5433" ]};
       "hosts" := VSlice [VString "c"] ]} in
  get ["database"; "port"] (VMap (Merge later earlier)) = Some (VString "5433") /\
  get ["hosts"] (VMap (Merge later earlier)) = Some (VSlice [VString "c"]) /\
  get ["database"; "host"] (VMap (Merge later earlier)) = Some (VString "yaml-host").
Proof.
  intros earlier later. split; [|split].
  - apply (proj1 (Merge_ordered_overwrite later earlier ["database"; "port"]));
      vm_compute; reflexivity.
  - apply (proj1 (Merge_ordered_overwrite later earlier ["hosts"]));
      vm_compute; reflexivity.
  - apply (proj1 (proj2 (Merge_ordered_overwrite later earlier ["database"; "host"])));
      vm_compute; reflexivity.
Defined.

(** C6, as stated, fails: the key path [a.b] is in the earlier source
    only, and the merge does not keep its value, because the later
    source holds a string under [a]. *)
Lemma Merge_ordered_overwrite_counterexample :
  let earlier : Tree := {[ "a" := VMap {[ "b" := VInt 1 ]} ]} in
  let later : Tree := {[ "a" := VString "x" ]} in
  get ["a"; "b"] (VMap earlier) = Some (VInt 1) /\
  get ["a"; "b"] (VMap later) = None /\
  get ["a"; "b"] (VMap (Merge later earlier)) = None /\
  Merge later earlier = {[ "a" := VString "x" ]}.
Proof. repeat split; vm_compute; reflexivity. Qed.

(** ** [Duration] *)

(** C10.  On a receiver that is not nil, [UnmarshalText] returns no
    error exactly when [time.ParseDuration] accepts the text, and the
    receiver then holds the parsed duration; otherwise the receiver is
    left as it was and the error returned wraps the error of the parser
    under the message [can't parse duration]. *)
Theorem UnmarshalText_spec (parse : string -> error + Z) (s : string) (d : Duration) :
  match parse s with
  | inr t => UnmarshalText parse (Some d) s = Returns (Some t, None)
  | inl err =>
      UnmarshalText parse (Some d) s =
        Returns (Some d, Some (Errorf "can't parse duration" err)) /\
      Contains (Error (Errorf "can't parse duration" err)) "can't parse duration" /\
      Unwrap (Errorf "can't parse duration" err) = Some err /\
      errors_Is (Errorf "can't parse duration" err) err = true
  end /\
  ((exists d', UnmarshalText parse (Some d) s = Returns (d', None)) <->
   (exists t, parse s = inr t)).
Proof.
  unfold UnmarshalText. destruct (parse s) as [err|t].
  - split; [split; [reflexivity|apply Errorf_wraps]|].
    split; [intros [d' [=]]|intros [t [=]]].
  - split; [reflexivity|]. split; eauto.
Qed.

(** One second is parsed and stored; a text that is no duration leaves
    the receiver and is reported. *)
Lemma UnmarshalText_spec_witness :
  UnmarshalText ParseDuration_ref (Some 0) "1s" = Returns (Some 1000000000, None) /\
  UnmarshalText ParseDuration_ref (Some 7) "soon" =
    Returns (Some 7, Some (Errorf "can't parse duration"
                             (errors_New ("time: invalid duration " +:+ dq +:+ "soon" +:+ dq)))).
Proof.
  split.
  - exact (proj1 (UnmarshalText_spec ParseDuration_ref "1s" 0)).
  - exact (proj1 (proj1 (UnmarshalText_spec ParseDuration_ref "soon" 7))).
Defined.

(** * Further properties *)

(** ** Options *)

Lemma apply_app (o : options) (xs ys : list Option) :
  apply o (xs ++ ys) = apply (apply o xs) ys.
Proof. unfold apply. apply fold_left_app. Qed.

(** X1.  Options are applied from left to right, each on the result of
    the one before, and of several [WithLocalYAML] the last one decides
    the path; without one the path is the path the options had. *)
Theorem apply_last_path (o : options) (xs ys : list Option) (ps : list string) :
  apply o (xs ++ ys) = apply (apply o xs) ys /\
  withYaml (apply o (map WithLocalYAML ps)) = List.last ps (withYaml o) /\
  withYaml (apply o (xs ++ map WithLocalYAML ps)) = List.last ps (withYaml (apply o xs)).
Proof.
  assert (H : forall o', withYaml (apply o' (map WithLocalYAML ps)) = List.last ps (withYaml o')).
  { intros o'. induction ps as [|p ps IH] using rev_ind; [reflexivity|].
    rewrite map_app, apply_app, last_last. reflexivity. }
  split; [apply apply_app|]. split; [apply H|].
  rewrite apply_app. apply H.
Qed.

(** X2.  Whatever options come first, [Load] with a last option
    [WithLocalYAML p] is [Load] with that option alone: the paths of the
    earlier options are not read. *)
Theorem Load_last_option (w : World) (T : Type)
    (Unmarshal : Koanf -> T -> option error * T) (c : T) (opts : list Option)
    (p : string) (log : list Event) :
  Load w T Unmarshal c (opts ++ [WithLocalYAML p]) log =
  Load w T Unmarshal c [WithLocalYAML p] log.
Proof. unfold Load. rewrite apply_app. reflexivity. Qed.

(** ** The errors of [Load] *)

Lemma errors_Is_Errorf (tag : string) (cause target : error) :
  errors_Is cause target = true -> errors_Is (Errorf tag cause) target = true.
Proof. intros H. cbn. case_decide; [reflexivity|exact H]. Qed.

(** X3.  Every error [Load] returns is a cause wrapped with one of the
    four tags; unless the tag is [unmarshal] the target is returned as
    it was given; and whatever [errors.Is] finds in the cause it finds
    in the error returned. *)
Theorem Load_error_tagged (w : World) (T : Type)
    (Unmarshal : Koanf -> T -> option error * T) (c c' : T) (opts : list Option)
    (log log' : list Event) (err : error) :
  Load w T Unmarshal c opts log = ((Some err, c'), log') ->
  exists tag cause,
    err = Errorf tag cause /\
    (tag = "load yaml" \/ tag = "load dotenv" \/ tag = "load env" \/ tag = "unmarshal") /\
    (tag <> "unmarshal" -> c' = c) /\
    (forall target, errors_Is cause target = true -> errors_Is err target = true).
Proof.
  rewrite Load_sources. cbv zeta.
  destruct (yaml_source w _) as [e|ty].
  { intros [= <- <- _]. exists "load yaml", e. repeat split; auto using errors_Is_Errorf. }
  destruct (dotenv_source w) as [e|td].
  { intros [= <- <- _]. exists "load dotenv", e. repeat split; auto using errors_Is_Errorf. }
  destruct (env_source w) as [e|te].
  { intros [= <- <- _]. exists "load env", e. repeat split; auto 6 using errors_Is_Errorf. }
  destruct (Unmarshal _ c) as [[e|] c'']; cbn; [|discriminate].
  intros [= <- <- _]. exists "unmarshal", e.
  repeat split; auto 6 using errors_Is_Errorf. congruence.
Qed.

(** The invalid structured file of [TestYAMLLoadErrorPropagation]. *)
Lemma Load_error_tagged_witness :
  exists tag cause,
    Errorf "load yaml" (errors_New "yaml: did not find expected node content") =
      Errorf tag cause /\
    (tag = "load yaml" \/ tag = "load dotenv" \/ tag = "load env" \/ tag = "unmarshal") /\
    (tag <> "unmarshal" -> 0 = 0) /\
    (forall target, errors_Is cause target = true ->
       errors_Is (Errorf "load yaml"
                    (errors_New "yaml: did not find expected node content")) target = true).
Proof.
  apply (Load_error_tagged (world_of fx_bad_yaml) Z Unmarshal_port 0 0
           [WithLocalYAML "invalid.yaml"] [] [EvReadFile "invalid.yaml"]).
  vm_compute; reflexivity.
Defined.

(** X4.  An error [Load] returns from one of the two file stages never
    satisfies [errors.Is(err, os.ErrNotExist)]: a missing file is
    skipped, and what is reported is something else. *)
Theorem Load_file_error_not_missing (w : World) (T : Type)
    (Unmarshal : Koanf -> T -> option error * T) (c c' : T) (opts : list Option)
    (log log' : list Event) (tag : string) (cause : error) :
  Load w T Unmarshal c opts log = ((Some (Errorf tag cause), c'), log') ->
  tag = "load yaml" \/ tag = "load dotenv" ->
  errors_Is (Errorf tag cause) ErrNotExist = false /\
  errors_Is cause ErrNotExist = false.
Proof.
  rewrite Load_sources. cbv zeta. intros HL Htag.
  assert (Hc : errors_Is cause ErrNotExist = false).
  { destruct (yaml_source w _) as [e|ty] eqn:Hy.
    { injection HL as _ <- _ _.
      unfold yaml_source in Hy. case_decide; [discriminate|].
      by apply skip_not_found_error in Hy as [_ ?]. }
    destruct (dotenv_source w) as [e|td] eqn:Hd.
    { injection HL as _ <- _ _. by apply skip_not_found_error in Hd as [_ ?]. }
    destruct (env_source w) as [e|te].
    { injection HL as <- _ _ _. by destruct Htag. }
    destruct (Unmarshal _ c) as [[e|] c'']; cbn in HL; [|discriminate].
    injection HL as <- _ _ _. by destruct Htag. }
  split; [|exact Hc]. cbn. case_decide; [discriminate|exact Hc].
Qed.

(** The dotenv file with a line that is no pair. *)
Lemma Load_file_error_not_missing_witness :
  errors_Is (Errorf "load dotenv" (errors_New "unexpected character in variable name"))
    ErrNotExist = false.
Proof.
  apply (Load_file_error_not_missing (world_of fx_bad_dotenv) Z Unmarshal_port 0 0 []
           [] [EvReadFile ".env"] "load dotenv"
           (errors_New "unexpected character in variable name")).
  - vm_compute; reflexivity.
  - right; reflexivity.
Defined.

(** ** The reads of [Load] *)

(** X5.  [Load] only adds to the log, and what it adds is an initial
    part of: the structured file (when a path is set), then [.env], then
    the environment.  When it returns no error it has performed all of
    them, each once, in this order. *)
Theorem Load_reads (w : World) (T : Type)
    (Unmarshal : Koanf -> T -> option error * T) (c : T) (opts : list Option)
    (log : list Event) :
  let path := withYaml (apply new_options opts) in
  exists evs,
    (Load w T Unmarshal c opts log).2 = log ++ evs /\
    evs `prefix_of` yaml_reads path ++ [EvReadFile ".env"; EvEnviron] /\
    (forall c', (Load w T Unmarshal c opts log).1 = (None, c') ->
       evs = yaml_reads path ++ [EvReadFile ".env"; EvEnviron]).
Proof.
  intros path. rewrite Load_sources. cbv zeta. fold path.
  destruct (yaml_source w path) as [e|ty].
  { exists (yaml_reads path). split; [reflexivity|]. split; [|discriminate].
    by eexists. }
  destruct (dotenv_source w) as [e|td].
  { exists (yaml_reads path ++ [EvReadFile ".env"]).
    split; [by rewrite <- app_assoc|]. split; [|discriminate].
    exists [EvEnviron]. by rewrite <- app_assoc. }
  exists (yaml_reads path ++ [EvReadFile ".env"; EvEnviron]).
  destruct (env_source w) as [e|te]; (split; [by rewrite <- !app_assoc|]);
    (split; [reflexivity|]); done.
Qed.

(** ** More on [envTransform] *)

Section TransformMore.
Variable lower : string -> string.
Variable jm : string -> error + Tree.
Variable js : string -> error + list Value.

(** X6.  The value [envTransform] returns tells how it was made: a map
    only for a value that starts with [{], ends with [}] and was decoded
    to that map; a sequence only for a value that starts with [[], ends
    with []] and was decoded to that sequence; and a string only as the
    value that was given. *)
Theorem envTransform_inversion (k v : string) :
  (forall m, (envTransform lower jm js k v).2 = VMap m ->
     HasPrefix v "{" = true /\ HasSuffix v "}" = true /\ jm v = inr m) /\
  (forall a, (envTransform lower jm js k v).2 = VSlice a ->
     HasPrefix v "[" = true /\ HasSuffix v "]" = true /\ js v = inr a) /\
  (forall s, (envTransform lower jm js k v).2 = VString s -> s = v).
Proof.
  unfold envTransform.
  destruct (HasPrefix v "{") eqn:Ho, (HasSuffix v "}") eqn:Hc, (jm v) as [e|m],
    (HasPrefix v "[") eqn:Ho', (HasSuffix v "]") eqn:Hc', (js v) as [e'|a]; cbn;
    (split; [|split]); intros x [=]; subst; auto.
Qed.

(** X7.  A value of at most one byte is returned as the string it is,
    whatever the decoders would make of it: one byte cannot both open
    and close an object or an array. *)
Theorem envTransform_short_value (k v : string) :
  (String.length v <= 1)%nat ->
  envTransform lower jm js k v = (ToLower lower k, VString v).
Proof.
  destruct v as [|c [|c' v']]; cbn [String.length]; [reflexivity| |lia].
  intros _. unfold envTransform.
  destruct c as [[] [] [] [] [] [] [] []]; reflexivity.
Qed.

Lemma lower_byte_ascii (c : ascii) :
  is_ascii_byte c = true -> is_ascii_byte (lower_byte c) = true.
Proof. destruct c as [[] [] [] [] [] [] [] []]; vm_compute; congruence. Qed.

Lemma string_map_lower_ascii (s : string) :
  string_forallb is_ascii_byte s = true ->
  string_forallb is_ascii_byte (string_map lower_byte s) = true.
Proof.
  induction s as [|c s IH]; [reflexivity|].
  cbn [string_forallb string_map]. intros [Hc Hs]%andb_prop.
  by rewrite lower_byte_ascii, IH.
Qed.

(** X8.  On an ASCII-only key the normalisation is idempotent: the key
    [envTransform] returns is returned unchanged when it is transformed
    again; and the key returned is empty only for the empty key. *)
Theorem envTransform_key_idempotent (k v v' : string) :
  string_forallb is_ascii_byte k = true ->
  (envTransform lower jm js (envTransform lower jm js k v).1 v').1 =
    (envTransform lower jm js k v).1 /\
  ((envTransform lower jm js k v).1 = EmptyString -> k = EmptyString).
Proof.
  intros Ha. rewrite !envTransform_key. rewrite (ToLower_ascii lower k Ha). split.
  - rewrite ToLower_ascii by by apply string_map_lower_ascii.
    apply string_map_lower_id, string_map_lower_no_upper.
  - destruct k; [reflexivity|discriminate].
Qed.
End TransformMore.

(** A closing brace alone, and the key [DATABASE__HOST]. *)
Lemma envTransform_short_value_witness :
  envTransform (fun s => s) json_objects_ref json_arrays_ref "KEY" "}" =
    ("key", VString "}").
Proof.
  apply (envTransform_short_value (fun s => s) json_objects_ref json_arrays_ref "KEY" "}").
  cbn. lia.
Defined.

Lemma envTransform_key_idempotent_witness :
  (envTransform (fun s => s) json_objects_ref json_arrays_ref
     (envTransform (fun s => s) json_objects_ref json_arrays_ref
        "DATABASE__HOST" "localhost").1 "5432").1 = "database__host".
Proof.
  rewrite (proj1 (envTransform_key_idempotent (fun s => s) json_objects_ref
                    json_arrays_ref "DATABASE__HOST" "localhost" "5432" eq_refl)).
  reflexivity.
Defined.

(** ** More on [Duration] *)

Section DurationFacts.
Variable parse : string -> error + Z.
Variable str : Z -> string.
Variable Node : Type.
Variable decode : Node -> error + string.

(** X9.  [UnmarshalText] panics exactly on a nil receiver with a text
    the parser accepts; on a nil receiver with any other text it returns
    the wrapped error of the parser, and the accessors [Duration] and
    [String] answer a nil receiver with zero and the empty string. *)
Theorem UnmarshalText_nil (d : option Duration) (s : string) :
  (UnmarshalText parse d s = Panics <-> d = None /\ exists t, parse s = inr t) /\
  (forall err, parse s = inl err ->
     UnmarshalText parse None s =
       Returns (None, Some (Errorf "can't parse duration" err))) /\
  Duration_Duration None = 0 /\
  Duration_String str None = EmptyString.
Proof.
  unfold UnmarshalText. repeat split.
  - destruct (parse s), d; done.
  - destruct (parse s), d; try done. eauto.
  - intros [-> [t ->]]. reflexivity.
  - intros err ->. reflexivity.
Qed.

(** X10.  On a receiver that is not nil [UnmarshalYAML] does not panic.
    It returns no error only when the node decodes to a string the
    parser accepts, and the receiver then holds the duration; when it
    returns an error the receiver is as it was, and the error is the
    error of the decoding under [can't unmarshal duration] or the error
    of the parser under [can't parse duration], wrapped once. *)
Theorem UnmarshalYAML_spec (d : Duration) (value : Node) :
  UnmarshalYAML parse Node decode (Some d) value <> Panics /\
  (forall d', UnmarshalYAML parse Node decode (Some d) value = Returns (d', None) ->
     exists s t, decode value = inr s /\ parse s = inr t /\ d' = Some t) /\
  (forall d' err,
     UnmarshalYAML parse Node decode (Some d) value = Returns (d', Some err) ->
     d' = Some d /\
     ((exists e, decode value = inl e /\ err = Errorf "can't unmarshal duration" e) \/
      (exists s e, decode value = inr s /\ parse s = inl e /\
                   err = Errorf "can't parse duration" e))).
Proof.
  unfold UnmarshalYAML, UnmarshalText.
  destruct (decode value) as [e|s] eqn:Hd; [|destruct (parse s) as [e|t] eqn:Hp];
    (split; [discriminate|split]).
  - intros d' [=].
  - intros d' err [= <- <-]. split; [reflexivity|]. left. by exists e.
  - intros d' [=].
  - intros d' err [= <- <-]. split; [reflexivity|]. right. by exists s, e.
  - intros d' [= <-]. by exists s, t.
  - intros d' err [=].
Qed.

(** X11.  What [UnmarshalText] stored is what the accessors read back:
    after a call without error [Duration] returns the duration the
    parser returned and [String] its text; and a text the parser reads
    back as [x] sets the receiver to [x], so that unmarshalling what
    [String] printed restores the duration. *)
Theorem UnmarshalText_read_back (d : Duration) (s : string) :
  (forall d', UnmarshalText parse (Some d) s = Returns (d', None) ->
     exists t, parse s = inr t /\ Duration_Duration d' = t /\
               Duration_String str d' = str t) /\
  (forall x, parse (str x) = inr x ->
     UnmarshalText parse (Some d) (Duration_String str (Some x)) =
       Returns (Some x, None)).
Proof.
  unfold UnmarshalText. split.
  - intros d'. destruct (parse s) as [e|t]; intros [= <-]. eauto.
  - intros x Hx. cbn. rewrite Hx. reflexivity.
Qed.
End DurationFacts.

(** One second, read back. *)
Lemma UnmarshalText_read_back_witness :
  UnmarshalText ParseDuration_ref (Some 0)
    (Duration_String (fun _ => "1s") (Some 1000000000)) =
    Returns (Some 1000000000, None).
Proof.
  apply (proj2 (UnmarshalText_read_back ParseDuration_ref (fun _ => "1s") 0 "1s")).
  reflexivity.
Defined.

(** ** Sources that contribute nothing *)

(** X12.  A stage that ingests nothing leaves no trace in what the
    decoder is given: without a dotenv contribution the decoder gets the
    environment merged over the structured file, and with neither file
    it gets the tree of the environment itself. *)
Theorem Load_neutral_sources (w : World) (T : Type)
    (Unmarshal : Koanf -> T -> option error * T) (c : T) (opts : list Option)
    (log : list Event) (ty te : Tree) :
  yaml_source w (withYaml (apply new_options opts)) = inr ty ->
  dotenv_source w = inr ∅ ->
  env_source w = inr te ->
  (Load w T Unmarshal c opts log).1 = materialized (Unmarshal (Merge te ty) c) /\
  (ty = ∅ -> (Load w T Unmarshal c opts log).1 = materialized (Unmarshal te c)).
Proof.
  intros Hy Hd He. rewrite Load_sources. cbv zeta. rewrite Hy, Hd, He, Merge_empty_l.
  split; [reflexivity|]. intros ->. rewrite Merge_empty_r. reflexivity.
Qed.

(** [TestYAMLPlusEnvPrecedence] at the port of the server: no dotenv
    file, and the environment over the structured file. *)
Lemma Load_neutral_sources_witness :
  (Load (world_of fx_env_only) Z Unmarshal_port 0 [] []).1 = (None, 9999).
Proof.
  set (te := {[ "server" := VMap {[ "port" := VString "9999" ]} ]} : Tree).
  assert (Hy : yaml_source (world_of fx_env_only)
                 (withYaml (apply new_options [])) = inr ∅)
    by (vm_compute; reflexivity).
  assert (Hd : dotenv_source (world_of fx_env_only) = inr ∅)
    by (vm_compute; reflexivity).
  assert (He : env_source (world_of fx_env_only) = inr te)
    by (vm_compute; reflexivity).
  rewrite (proj2 (Load_neutral_sources (world_of fx_env_only) Z Unmarshal_port 0
                    [] [] ∅ te Hy Hd He) eq_refl).
  vm_compute; reflexivity.
Defined.
